(** * drivehard: the pose-to-control-signal pipeline

    A shallow embedding of [App.runPrediction], [App.pushXInput] and
    [App.pushYInput] (the Control Signal Extractor and the Temporal Smoother)
    together with the constants they use.

    Numbers.  A TypeScript [number] is an IEEE-754 binary64 value, so the
    program is written once over an interface [JsNumber] and instantiated

    - at Rocq's primitive [float] (binary64, round to nearest even): this is
      the arithmetic the code runs on, and every evaluation of the program on
      a concrete frame is done there;
    - at the rationals [Q]: exact arithmetic without rounding, overflow or
      special values, in which the algebraic laws of the smoothing step are
      proved for all inputs.  Division by zero is left at [Q]'s default there
      and every statement made in that instance about a quotient assumes the
      divisor to be non-zero; what the code does at a zero divisor is settled
      in the binary64 instance.

    Effects.  [runPrediction] reads and assigns the two fields [xInput] and
    [yInput] of the application object and may throw; it is written in a small
    state-and-exception monad that also records each Smoother update with the
    raw estimate it was given. *)

From Stdlib Require Import String Floats QArith Qminmax Qpower Qround Qabs Lqa ZArith Lia Bool List.
Import ListNotations.

Set Implicit Arguments.
Set Warnings "-inexact-float".

(** ** The number interface *)

(** The literals and operators of [number] that the source uses. *)
Class JsNumber (N : Type) : Type := {
  lit_0 : N;
  lit_0_1 : N;
  lit_0_3 : N;
  lit_0_5 : N;
  lit_0_6 : N;
  lit_1 : N;
  lit_1_4 : N;
  lit_2 : N;
  js_add : N -> N -> N;
  js_sub : N -> N -> N;
  js_mul : N -> N -> N;
  js_div : N -> N -> N;
  js_ge : N -> N -> bool;
  Math_min : N -> N -> N;
  Math_max : N -> N -> N
}.

Declare Scope js_scope.
Delimit Scope js_scope with js.
Infix "+" := js_add : js_scope.
Infix "-" := js_sub : js_scope.
Infix "*" := js_mul : js_scope.
Infix "/" := js_div : js_scope.
Infix ">=" := js_ge : js_scope.

(** *** binary64 *)

Module Float64.

(** [Math.min(a, b)]: NaN when either argument is NaN, and -0 counts as
    smaller than +0. *)
Definition min (a b : float) : float :=
  match PrimFloat.compare a b with
  | FNotComparable => nan
  | FLt => a
  | FGt => b
  | FEq => if get_sign a then a else b
  end.

(** [Math.max(a, b)]: NaN when either argument is NaN, and +0 counts as
    larger than -0. *)
Definition max (a b : float) : float :=
  match PrimFloat.compare a b with
  | FNotComparable => nan
  | FLt => b
  | FGt => a
  | FEq => if get_sign a then b else a
  end.

(** [a >= b] on numbers. *)
Definition ge (a b : float) : bool := PrimFloat.leb b a.

(** [a < b] on numbers (used to say that a confidence is below the
    threshold). *)
Definition lt (a b : float) : bool := PrimFloat.ltb a b.

(** Membership in the closed unit interval; false for NaN. *)
Definition in_unit (v : float) : bool :=
  PrimFloat.leb 0 v && PrimFloat.leb v 1.

End Float64.

#[global] Instance float_number : JsNumber float := {
  lit_0 := 0%float;
  lit_0_1 := 0.1%float;
  lit_0_3 := 0.3%float;
  lit_0_5 := 0.5%float;
  lit_0_6 := 0.6%float;
  lit_1 := 1%float;
  lit_1_4 := 1.4%float;
  lit_2 := 2%float;
  js_add := PrimFloat.add;
  js_sub := PrimFloat.sub;
  js_mul := PrimFloat.mul;
  js_div := PrimFloat.div;
  js_ge := Float64.ge;
  Math_min := Float64.min;
  Math_max := Float64.max
}.

(** *** exact rationals *)

#[global] Instance exact_number : JsNumber Q := {
  lit_0 := 0%Q;
  lit_0_1 := (1 # 10)%Q;
  lit_0_3 := (3 # 10)%Q;
  lit_0_5 := (1 # 2)%Q;
  lit_0_6 := (6 # 10)%Q;
  lit_1 := 1%Q;
  lit_1_4 := (14 # 10)%Q;
  lit_2 := 2%Q;
  js_add := Qplus;
  js_sub := Qminus;
  js_mul := Qmult;
  js_div := Qdiv;
  js_ge := fun a b => Qle_bool b a;
  Math_min := Qmin;
  Math_max := Qmax
}.

(** ** Data model *)

(** [poseDetection.Keypoint]: [score] is optional; [z] and [name] are not
    read by the pipeline. *)
Record Keypoint (N : Type) : Type := mkKeypoint {
  x : N;
  y : N;
  score : option N
}.

(** [poseDetection.Pose]: only [keypoints] is read by the pipeline. *)
Record Pose (N : Type) : Type := mkPose {
  keypoints : list (Keypoint N)
}.

(** The fields of [App] that [runPrediction] reads or assigns.
    [poseDetector] is [true] when the detector object is set (not [null]). *)
Record App (N : Type) : Type := mkApp {
  poseDetector : bool;
  cameraLoaded : bool;
  xInput : N;
  yInput : N
}.

Definition set_xInput {N} (v : N) (a : App N) : App N :=
  {| poseDetector := poseDetector a; cameraLoaded := cameraLoaded a;
     xInput := v; yInput := yInput a |}.

Definition set_yInput {N} (v : N) (a : App N) : App N :=
  {| poseDetector := poseDetector a; cameraLoaded := cameraLoaded a;
     xInput := xInput a; yInput := v |}.

(** What a call can throw: [new Error(msg)], or the [TypeError] of reading a
    property of [undefined]. *)
Inductive exn : Type :=
| Error (msg : string)
| TypeError.

Inductive completion (A : Type) : Type :=
| Normal (v : A)
| Throw (e : exn).
Arguments Throw {A} e.

(** A Smoother update, with the raw estimate it was given. *)
Inductive update (N : Type) : Type :=
| PushX (raw : N)
| PushY (raw : N).

(** The outcome of running a method on an application object: how it
    completed, the object afterwards, and the Smoother updates it made. *)
Record outcome (N A : Type) : Type := mkOutcome {
  result : completion A;
  after : App N;
  updates : list (update N)
}.

Definition M (N A : Type) : Type := App N -> outcome N A.

Definition ret {N A} (v : A) : M N A :=
  fun a => {| result := Normal v; after := a; updates := [] |}.

Definition bind {N A B} (m : M N A) (f : A -> M N B) : M N B :=
  fun a =>
    let o := m a in
    match result o with
    | Throw e => {| result := Throw e; after := after o; updates := updates o |}
    | Normal v =>
        let o' := f v (after o) in
        {| result := result o'; after := after o';
           updates := updates o ++ updates o' |}
    end.

Definition throw {N A} (e : exn) : M N A :=
  fun a => {| result := Throw e; after := a; updates := [] |}.

(** Read a field of [this]. *)
Definition this {N A} (field : App N -> A) : M N A :=
  fun a => {| result := Normal (field a); after := a; updates := [] |}.

(** Assign a field of [this]. *)
Definition assign {N} (setter : App N -> App N) : M N unit :=
  fun a => {| result := Normal tt; after := setter a; updates := [] |}.

(** Record a Smoother update. *)
Definition record {N} (u : update N) : M N unit :=
  fun a => {| result := Normal tt; after := a; updates := [u] |}.

Declare Scope monad_scope.
Delimit Scope monad_scope with monad.
Notation "v <- m ;; k" := (bind m (fun v => k))
  (at level 61, m at next level, right associativity) : monad_scope.
Notation "m ;; k" := (bind m (fun _ => k))
  (at level 61, right associativity) : monad_scope.

(** [b1 && b2] where evaluating an operand may throw: the right operand is
    evaluated only when the left one is true. *)
Definition and_then {N} (b1 b2 : M N bool) : M N bool :=
  bind b1 (fun v => if v then b2 else ret false).

(** ** The program *)

Section Pipeline.

Context {N : Type} `{JsNumber N}.
Local Open Scope js_scope.
Local Open Scope monad_scope.

(** The constants of lines 4-17. *)
Definition NOSE_KEYPOINT : nat := 0.
Definition LEFT_EAR_KEYPOINT : nat := 3.
Definition RIGHT_EAR_KEYPOINT : nat := 4.
Definition LEFT_SHOULDER_KEYPOINT : nat := 5.
Definition RIGHT_SHOULDER_KEYPOINT : nat := 6.

Definition POSE_CONFIDENCE_THRESHOLD : N := lit_0_3.
Definition POSE_LERP_FACTOR : N := lit_0_1.
Definition MOVE_THRESHOLD : N := lit_0_1.
Definition Y_MIN : N := lit_0_6.
Definition Y_MAX : N := lit_1_4.

(** [k.x] and [k.y] where [k] is the result of indexing an array: reading
    a property of [undefined] throws. *)
Definition get_x (k : option (Keypoint N)) : M N N :=
  match k with Some kp => ret (x kp) | None => throw TypeError end.

Definition get_y (k : option (Keypoint N)) : M N N :=
  match k with Some kp => ret (y kp) | None => throw TypeError end.

(** [s >= POSE_CONFIDENCE_THRESHOLD] for an optional score [s]: an absent
    score is [undefined], which compares as NaN, so the test is false. *)
Definition confident (s : option N) : bool :=
  match s with
  | Some v => v >= POSE_CONFIDENCE_THRESHOLD
  | None => false
  end.

(** [k.score! >= POSE_CONFIDENCE_THRESHOLD]; the [!] is erased by the
    compiler. *)
Definition score_ok (k : option (Keypoint N)) : M N bool :=
  match k with
  | Some kp => ret (confident (score kp))
  | None => throw TypeError
  end.

(** [pushXInput] and [pushYInput] (lines 119-125):
    [this.xInput = this.xInput + (xInput - this.xInput) * POSE_LERP_FACTOR]. *)
Definition pushXInput (raw : N) : M N unit :=
  record (PushX raw) ;;
  cur <- this (@xInput N) ;;
  assign (set_xInput (cur + (raw - cur) * POSE_LERP_FACTOR)).

Definition pushYInput (raw : N) : M N unit :=
  record (PushY raw) ;;
  cur <- this (@yInput N) ;;
  assign (set_yInput (cur + (raw - cur) * POSE_LERP_FACTOR)).

(** [draw] paints the canvas from the two signals and assigns nothing. *)
Definition draw : M N unit := ret tt.

(** [runPrediction] (lines 63-117), given the array [poses] that
    [estimatePoses] resolved to.  The pattern [[pose]] is the test
    [poses.length === 1] together with [const pose = poses[0]]; indexing
    [pose.keypoints] yields [None] for [undefined]. *)
Definition runPrediction (poses : list (Pose N)) : M N unit :=
  detector <- this (@poseDetector N) ;;
  if negb detector then throw (Error "Pose detector not initialized") else
  loaded <- this (@cameraLoaded N) ;;
  if negb loaded then throw (Error "Camera not loaded") else
  (match poses with
   | [pose] =>
       let nose := nth_error (keypoints pose) NOSE_KEYPOINT in
       let leftShoulder := nth_error (keypoints pose) LEFT_SHOULDER_KEYPOINT in
       let rightShoulder := nth_error (keypoints pose) RIGHT_SHOULDER_KEYPOINT in
       (* X input *)
       okX <- and_then (score_ok nose)
                (and_then (score_ok leftShoulder) (score_ok rightShoulder)) ;;
       (if okX then
          nx <- get_x nose ;;
          lx <- get_x leftShoulder ;;
          rx <- get_x rightShoulder ;;
          pushXInput ((nx - lx) / (rx - lx))
        else pushXInput lit_0_5) ;;
       (* Y input *)
       let leftEar := nth_error (keypoints pose) LEFT_EAR_KEYPOINT in
       let rightEar := nth_error (keypoints pose) RIGHT_EAR_KEYPOINT in
       okY <- and_then (score_ok leftShoulder)
                (and_then (score_ok rightShoulder)
                   (and_then (score_ok leftEar)
                      (and_then (score_ok rightEar) (score_ok nose)))) ;;
       if okY then
         ly <- get_y leftShoulder ;;
         ry <- get_y rightShoulder ;;
         let shoulderY := (ly + ry) / lit_2 in
         ley <- get_y leftEar ;;
         rey <- get_y rightEar ;;
         let earY := (ley + rey) / lit_2 in
         ny <- get_y nose ;;
         let y := (ny - shoulderY) / (earY - shoulderY) in
         let yScaled := (y - Y_MIN) / (Y_MAX - Y_MIN) in
         pushYInput (Math_max lit_0 (Math_min lit_1 yScaled))
       else ret tt
   | _ =>
       (* Slowly reset back to normal if pose doesn't go through *)
       pushXInput lit_0_5 ;;
       pushYInput lit_0_5
   end) ;;
  draw.

End Pipeline.

(** ** Vocabulary of the statements *)

Section Vocabulary.

Context {N : Type} `{JsNumber N}.
Local Open Scope js_scope.

(** The run-time guards of [runPrediction] pass. *)
Definition ready (a : App N) : Prop :=
  poseDetector a = true /\ cameraLoaded a = true.

(** The effect of one recorded Smoother update on the application object. *)
Definition apply_update (a : App N) (u : update N) : App N :=
  match u with
  | PushX raw => set_xInput (xInput a + (raw - xInput a) * POSE_LERP_FACTOR) a
  | PushY raw => set_yInput (yInput a + (raw - yInput a) * POSE_LERP_FACTOR) a
  end.

Definition replay (us : list (update N)) (a : App N) : App N :=
  fold_left apply_update us a.

(** The raw horizontal, respectively vertical, estimates a frame pushed. *)
Fixpoint pushed_x (us : list (update N)) : list N :=
  match us with
  | [] => []
  | PushX raw :: rest => raw :: pushed_x rest
  | PushY _ :: rest => pushed_x rest
  end.

Fixpoint pushed_y (us : list (update N)) : list N :=
  match us with
  | [] => []
  | PushX _ :: rest => pushed_y rest
  | PushY raw :: rest => raw :: pushed_y rest
  end.

(** The five landmarks of a pose the extractor reads. *)
Record landmarks : Type := mkLandmarks {
  nose : Keypoint N;
  leftEar : Keypoint N;
  rightEar : Keypoint N;
  leftShoulder : Keypoint N;
  rightShoulder : Keypoint N
}.

(** [pose] carries the landmarks [l] at the indices the extractor reads. *)
Definition has_landmarks (pose : Pose N) (l : landmarks) : Prop :=
  nth_error (keypoints pose) NOSE_KEYPOINT = Some (nose l) /\
  nth_error (keypoints pose) LEFT_EAR_KEYPOINT = Some (leftEar l) /\
  nth_error (keypoints pose) RIGHT_EAR_KEYPOINT = Some (rightEar l) /\
  nth_error (keypoints pose) LEFT_SHOULDER_KEYPOINT = Some (leftShoulder l) /\
  nth_error (keypoints pose) RIGHT_SHOULDER_KEYPOINT = Some (rightShoulder l).

(** The confidence gates, as the specification words them. *)
Definition horizontal_gate (l : landmarks) : bool :=
  confident (score (nose l)) && confident (score (leftShoulder l))
  && confident (score (rightShoulder l)).

Definition vertical_gate (l : landmarks) : bool :=
  confident (score (leftShoulder l)) && confident (score (rightShoulder l))
  && confident (score (leftEar l)) && confident (score (rightEar l))
  && confident (score (nose l)).

(** raw_x = (nose.x - leftShoulder.x) / (rightShoulder.x - leftShoulder.x). *)
Definition horizontal_ratio (l : landmarks) : N :=
  (x (nose l) - x (leftShoulder l)) / (x (rightShoulder l) - x (leftShoulder l)).

Definition shoulder_y (l : landmarks) : N :=
  (y (leftShoulder l) + y (rightShoulder l)) / lit_2.

Definition ear_y (l : landmarks) : N :=
  (y (leftEar l) + y (rightEar l)) / lit_2.

(** y = (nose.y - shoulderY) / (earY - shoulderY). *)
Definition vertical_ratio (l : landmarks) : N :=
  (y (nose l) - shoulder_y l) / (ear_y l - shoulder_y l).

(** yScaled = (y - Y_MIN) / (Y_MAX - Y_MIN). *)
Definition y_scaled (l : landmarks) : N :=
  (vertical_ratio l - Y_MIN) / (Y_MAX - Y_MIN).

(** clamp(v, 0, 1). *)
Definition clamp_unit (v : N) : N := Math_max lit_0 (Math_min lit_1 v).


End Vocabulary.

Arguments landmarks N : clear implicits.

(** ** Frames used as examples *)

Section Frames.

Context {N : Type} `{JsNumber N}.

(** The application object once [run] has set up the detector and the camera:
    both signals still at their initial 0.5. *)
Definition initial : App N :=
  {| poseDetector := true; cameraLoaded := true;
     xInput := lit_0_5; yInput := lit_0_5 |}.

(** A pose whose keypoint array holds the given landmarks at the indices the
    extractor reads (the two eyes, at indices 1 and 2, are never read). *)
Definition pose_of (eye : Keypoint N) (l : landmarks N) : Pose N :=
  {| keypoints := [nose l; eye; eye; leftEar l; rightEar l;
                   leftShoulder l; rightShoulder l] |}.

End Frames.

Module Float64Frames.

Local Open Scope float_scope.

Definition kp (px py s : float) : Keypoint float :=
  {| x := px; y := py; score := Some s |}.

Definition eye : Keypoint float := kp 320 190 0.9.

(** A person facing the camera, head centred between the shoulders. *)
Definition facing : landmarks float :=
  {| nose := kp 320 200 0.9;
     leftEar := kp 340 190 0.9; rightEar := kp 300 190 0.9;
     leftShoulder := kp 400 300 0.9; rightShoulder := kp 240 300 0.9 |}.

(** The same person with both ears hidden (low ear confidence). *)
Definition ears_hidden : landmarks float :=
  {| nose := kp 320 200 0.9;
     leftEar := kp 340 190 0.1; rightEar := kp 300 190 0.1;
     leftShoulder := kp 400 300 0.9; rightShoulder := kp 240 300 0.9 |}.

(** A person turned sideways: the shoulders are 10 pixels apart and the nose
    is 60 pixels beyond the left shoulder. *)
Definition sideways : landmarks float :=
  {| nose := kp 160 200 0.9;
     leftEar := kp 150 190 0.9; rightEar := kp 150 190 0.9;
     leftShoulder := kp 100 300 0.9; rightShoulder := kp 110 300 0.9 |}.

(** Nose exactly above the left, respectively right, shoulder. *)
Definition nose_over_left : landmarks float :=
  {| nose := kp 400 200 0.9;
     leftEar := kp 340 190 0.9; rightEar := kp 300 190 0.9;
     leftShoulder := kp 400 300 0.9; rightShoulder := kp 240 300 0.9 |}.

Definition nose_over_right : landmarks float :=
  {| nose := kp 240 200 0.9;
     leftEar := kp 340 190 0.9; rightEar := kp 300 190 0.9;
     leftShoulder := kp 400 300 0.9; rightShoulder := kp 240 300 0.9 |}.


(** Nose, ears and shoulders confidently detected on one horizontal line,
    the shoulders apart. *)
Definition level : landmarks float :=
  {| nose := kp 320 240 0.9;
     leftEar := kp 340 240 0.9; rightEar := kp 300 240 0.9;
     leftShoulder := kp 400 240 0.9; rightShoulder := kp 240 240 0.9 |}.

(** The person of [facing] with the left shoulder out of view (low
    confidence). *)
Definition left_shoulder_hidden : landmarks float :=
  {| nose := kp 320 200 0.9;
     leftEar := kp 340 190 0.9; rightEar := kp 300 190 0.9;
     leftShoulder := kp 400 300 0.2; rightShoulder := kp 240 300 0.9 |}.

(** A pose whose keypoint array stops after the nose. *)
Definition truncated : Pose float :=
  {| keypoints := [kp 320 200 0.9] |}.

(** A confidence is below the threshold; an absent score counts as zero
    confidence. *)
Definition below (k : Keypoint float) : bool :=
  match score k with
  | Some s => Float64.lt s POSE_CONFIDENCE_THRESHOLD
  | None => true
  end.


(** "Each of the two scalars is updated exactly once", read on the outcome of
    a frame. *)
Definition updated_once (o : outcome float unit) : Prop :=
  length (pushed_x (updates o)) = 1%nat /\ length (pushed_y (updates o)) = 1%nat.

(** The application object with its horizontal signal at [v]. *)
Definition at_x (v : float) : App float := set_xInput v initial.



End Float64Frames.

Module Exact.

Local Open Scope Q_scope.

(** Membership in the closed unit interval. *)
Definition in_unit (q : Q) : Prop := 0 <= q /\ q <= 1.

(** The application object with its horizontal signal at [v]. *)
Definition at_x (v : Q) : App Q := set_xInput v initial.

(** Nose exactly above the right shoulder. *)
Definition nose_over_right : landmarks Q :=
  {| nose := {| x := 240; y := 200; score := Some (9 # 10) |};
     leftEar := {| x := 340; y := 190; score := Some (9 # 10) |};
     rightEar := {| x := 300; y := 190; score := Some (9 # 10) |};
     leftShoulder := {| x := 400; y := 300; score := Some (9 # 10) |};
     rightShoulder := {| x := 240; y := 300; score := Some (9 # 10) |} |}.


End Exact.

(** ** The frame loop and the renderer *)

Definition set_poseDetector {N} (v : bool) (a : App N) : App N :=
  {| poseDetector := v; cameraLoaded := cameraLoaded a;
     xInput := xInput a; yInput := yInput a |}.

Definition set_cameraLoaded {N} (v : bool) (a : App N) : App N :=
  {| poseDetector := poseDetector a; cameraLoaded := v;
     xInput := xInput a; yInput := yInput a |}.

(** What the awaited library and browser calls of the set-up did:
    [poseDetection.createDetector] and [getUserMedia] either resolve ([None])
    or reject with an exception; [mediaDevices] tells whether
    [navigator.mediaDevices.getUserMedia] exists.  The metadata event of the
    video element is taken to arrive. *)
Record environment : Type := mkEnvironment {
  createDetector : option exn;
  mediaDevices : bool;
  getUserMedia : option exn
}.

Section Loop.

Context {N : Type} `{JsNumber N}.
Local Open Scope monad_scope.

(** [setupPoseDetector] (lines 161-169). *)
Definition setupPoseDetector (env : environment) : M N unit :=
  match createDetector env with
  | Some e => throw e
  | None => assign (set_poseDetector true)
  end.

(** [setupCamera] (lines 175-213): the stream is attached to the video
    element, which is outside the model; [cameraLoaded] is set last. *)
Definition setupCamera (env : environment) : M N unit :=
  if negb (mediaDevices env) then
    throw (Error "Browser API navigator.mediaDevices.getUserMedia not available")
  else
    match getUserMedia env with
    | Some e => throw e
    | None => assign (set_cameraLoaded true)
    end.

(** One call of [run] (lines 46-61), up to [requestAnimationFrame]; [poses]
    is what [estimatePoses] resolved to in that call. *)
Definition run_once (env : environment) (poses : list (Pose N)) : M N unit :=
  detector <- this (@poseDetector N) ;;
  (if negb detector then setupPoseDetector env else ret tt) ;;
  loaded <- this (@cameraLoaded N) ;;
  (if negb loaded then setupCamera env else ret tt) ;;
  runPrediction poses.

(** [run] over the animation frames that occur: each call ends by scheduling
    the next one, which an exception thrown earlier in the call prevents.
    [frames] lists, per animation frame, what [estimatePoses] resolved to. *)
Fixpoint run (env : environment) (frames : list (list (Pose N))) : M N unit :=
  match frames with
  | [] => ret tt
  | poses :: later => run_once env poses ;; run env later
  end.

End Loop.

(** The numeric functions and literals that only [draw] uses. *)
Class JsAbs (N : Type) : Type := {
  Math_abs : N -> N
}.

Class JsCanvas (N : Type) : Type := {
  lit_50 : N;
  Math_PI : N
}.

#[global] Instance float_abs : JsAbs float := {
  Math_abs := PrimFloat.abs
}.

#[global] Instance float_canvas : JsCanvas float := {
  lit_50 := 50%float;
  Math_PI := 0x1.921fb54442d18p+1%float
}.


(** The fields of [App] that [draw] reads besides the two signals. *)
Record Viewport (N : Type) : Type := mkViewport {
  width : N;
  height : N
}.

(** The calls and assignments [draw] makes on the 2D context. *)
Inductive canvas_op (N : Type) : Type :=
| ClearRect (left top w h : N)
| StrokeStyle (style : string)
| FillStyle (style : string)
| BeginPath
| MoveTo (px py : N)
| LineTo (px py : N)
| Stroke
| Arc (cx cy radius startAngle endAngle : N)
| Fill.
Arguments BeginPath {N}.
Arguments Stroke {N}.
Arguments Fill {N}.
Arguments StrokeStyle {N} style.
Arguments FillStyle {N} style.

Section Renderer.

Context {N : Type} `{JsNumber N} `{JsAbs N}.
Local Open Scope js_scope.

(** The x of the two yellow threshold lines. *)
Definition threshold_left (v : Viewport N) : N :=
  width v / lit_2 - MOVE_THRESHOLD * width v.

Definition threshold_right (v : Viewport N) : N :=
  width v / lit_2 + MOVE_THRESHOLD * width v.

(** The centre of the indicator: [x] and [y] of lines 148-149. *)
Definition indicator_x (v : Viewport N) (a : App N) : N :=
  xInput a * width v.

Definition indicator_y (v : Viewport N) (a : App N) : N :=
  (lit_1 - yInput a) * height v.

(** [Math.abs(this.xInput - 0.5) >= MOVE_THRESHOLD]. *)
Definition engaged (a : App N) : bool :=
  Math_abs (xInput a - lit_0_5) >= MOVE_THRESHOLD.

Definition indicator_fill (a : App N) : string :=
  if engaged a then "rgba(255, 255, 0, 0.8)" else "rgba(255, 255, 255, 0.5)".

(** [draw] (lines 127-159) as the sequence of operations on [this.ctx]. *)
Definition draw_ops `{JsCanvas N} (v : Viewport N) (a : App N)
  : list (canvas_op N) :=
  [ ClearRect lit_0 lit_0 (width v) (height v);
    (* Draw center line in white *)
    StrokeStyle "white";
    BeginPath;
    MoveTo (width v / lit_2) lit_0;
    LineTo (width v / lit_2) (height v);
    Stroke;
    (* Draw threshold lines in yellow *)
    StrokeStyle "yellow";
    BeginPath;
    MoveTo (threshold_left v) lit_0;
    LineTo (threshold_left v) (height v);
    Stroke;
    BeginPath;
    MoveTo (threshold_right v) lit_0;
    LineTo (threshold_right v) (height v);
    Stroke;
    BeginPath;
    Arc (indicator_x v a) (indicator_y v a) lit_50 lit_0 (lit_2 * Math_PI);
    FillStyle (indicator_fill a);
    Fill ].

End Renderer.

(** ** Vocabulary for the loop and the renderer *)

Section LoopVocabulary.

Context {N : Type} `{JsNumber N}.

(** The application object once both set-up steps have run. *)
Definition set_up (a : App N) : App N :=
  set_cameraLoaded true (set_poseDetector true a).

(** Each set-up step that [run] still has to take succeeds. *)
Definition can_set_up (env : environment) (a : App N) : Prop :=
  (poseDetector a = true \/ createDetector env = None) /\
  (cameraLoaded a = true \/
   (mediaDevices env = true /\ getUserMedia env = None)).


End LoopVocabulary.

(** The exception [setupCamera] throws itself. *)
Definition getUserMedia_unavailable : exn :=
  Error "Browser API navigator.mediaDevices.getUserMedia not available".

Module Float64Loop.

Local Open Scope float_scope.

(** A browser in which both set-up steps succeed, and one without
    [getUserMedia]. *)
Definition browser : environment :=
  {| createDetector := None; mediaDevices := true; getUserMedia := None |}.

Definition no_camera : environment :=
  {| createDetector := None; mediaDevices := false; getUserMedia := None |}.

(** The application object as the constructor leaves it. *)
Definition fresh : App float :=
  {| poseDetector := false; cameraLoaded := false;
     xInput := 0.5; yInput := 0.5 |}.

(** A keypoint whose score cannot pass the gate without being below the
    threshold: absent, or NaN. *)
Definition unusable (k : Keypoint float) : bool :=
  match score k with
  | Some s => is_nan s
  | None => true
  end.

(** The person of [facing] with no score on the nose, respectively a NaN
    score on the left ear. *)
Definition nose_unscored : landmarks float :=
  {| nose := {| x := 320; y := 200; score := None |};
     leftEar := Float64Frames.kp 340 190 0.9;
     rightEar := Float64Frames.kp 300 190 0.9;
     leftShoulder := Float64Frames.kp 400 300 0.9;
     rightShoulder := Float64Frames.kp 240 300 0.9 |}.

Definition ear_score_nan : landmarks float :=
  {| nose := Float64Frames.kp 320 200 0.9;
     leftEar := Float64Frames.kp 340 190 nan;
     rightEar := Float64Frames.kp 300 190 0.9;
     leftShoulder := Float64Frames.kp 400 300 0.9;
     rightShoulder := Float64Frames.kp 240 300 0.9 |}.

(** Keypoint arrays that stop after the left shoulder (six entries), with a
    confident and with a hidden left shoulder, and one with a hidden nose
    that stops after the right ear. *)
Definition six_confident : Pose float :=
  {| keypoints := [Float64Frames.kp 320 200 0.9; Float64Frames.eye;
                   Float64Frames.eye; Float64Frames.kp 340 190 0.9;
                   Float64Frames.kp 300 190 0.9; Float64Frames.kp 400 300 0.9] |}.

Definition six_hidden : Pose float :=
  {| keypoints := [Float64Frames.kp 320 200 0.9; Float64Frames.eye;
                   Float64Frames.eye; Float64Frames.kp 340 190 0.9;
                   Float64Frames.kp 300 190 0.9; Float64Frames.kp 400 300 0.1] |}.

Definition five_nose_hidden : Pose float :=
  {| keypoints := [Float64Frames.kp 320 200 0.1; Float64Frames.eye;
                   Float64Frames.eye; Float64Frames.kp 340 190 0.9;
                   Float64Frames.kp 300 190 0.9] |}.

(** The reference canvas, 640 by 480. *)
Definition canvas : Viewport float := {| width := 640; height := 480 |}.

End Float64Loop.

Module ExactLoop.

Local Open Scope Q_scope.

Definition browser : environment :=
  {| createDetector := None; mediaDevices := true; getUserMedia := None |}.

Definition canvas : Viewport Q := {| width := 640; height := 480 |}.


End ExactLoop.

(** * Facts *)

(** ** The program over any number type *)

Section Generic.

Context {N : Type} `{JsNumber N}.

Lemma has_landmarks_pose_of (eye : Keypoint N) (l : landmarks N) :
  has_landmarks (pose_of eye l) l.
Proof. repeat split. Qed.


Lemma pushXInput_eq (raw : N) (a : App N) :
  pushXInput raw a =
  {| result := Normal tt; after := apply_update a (PushX raw);
     updates := [PushX raw] |}.
Proof. reflexivity. Qed.

Lemma pushYInput_eq (raw : N) (a : App N) :
  pushYInput raw a =
  {| result := Normal tt; after := apply_update a (PushY raw);
     updates := [PushY raw] |}.
Proof. reflexivity. Qed.

(** A guard that fails throws before anything is read or assigned. *)
Lemma runPrediction_not_ready (poses : list (Pose N)) (a : App N) :
  ~ ready a ->
  after (runPrediction poses a) = a /\ updates (runPrediction poses a) = [] /\
  exists msg, result (runPrediction poses a) = Throw (Error msg).
Proof.
  unfold ready. destruct a as [[] [] xi yi]; simpl; intros Hn.
  - exfalso; auto.
  - repeat split. eexists; reflexivity.
  - repeat split. eexists; reflexivity.
  - repeat split. eexists; reflexivity.
Qed.

(** The [else] branch of [poses.length === 1]. *)
Lemma runPrediction_not_single (poses : list (Pose N)) (a : App N) :
  ready a -> length poses <> 1%nat ->
  runPrediction poses a =
  {| result := Normal tt;
     after := replay [PushX lit_0_5; PushY lit_0_5] a;
     updates := [PushX lit_0_5; PushY lit_0_5] |}.
Proof.
  intros [Hd Hc] Hlen. destruct a as [d c xi yi]; simpl in Hd, Hc; subst.
  destruct poses as [|p [|q r]]; try reflexivity. simpl in Hlen; congruence.
Qed.

(** The [then] branch, for a pose that carries the five landmarks. *)
Lemma runPrediction_single (pose : Pose N) (l : landmarks N) (a : App N) :
  ready a -> has_landmarks pose l ->
  let us := PushX (if horizontal_gate l then horizontal_ratio l else lit_0_5)
            :: (if vertical_gate l then [PushY (clamp_unit (y_scaled l))] else []) in
  runPrediction [pose] a =
  {| result := Normal tt; after := replay us a; updates := us |}.
Proof.
  intros [Hd Hc] (Hn & Hle & Hre & Hls & Hrs).
  destruct a as [d c xi yi]; simpl in Hd, Hc; subst.
  unfold runPrediction. rewrite Hn, Hle, Hre, Hls, Hrs.
  unfold horizontal_gate, vertical_gate.
  destruct l as [n le re ls rs]; simpl.
  destruct (confident (score n)), (confident (score ls)), (confident (score rs)),
    (confident (score le)), (confident (score re)); reflexivity.
Qed.

(** Case analysis on the five array reads and on the confidences read. *)
Ltac case_lookups p :=
  unfold runPrediction;
  destruct (nth_error (keypoints p) NOSE_KEYPOINT),
    (nth_error (keypoints p) LEFT_SHOULDER_KEYPOINT),
    (nth_error (keypoints p) RIGHT_SHOULDER_KEYPOINT),
    (nth_error (keypoints p) LEFT_EAR_KEYPOINT),
    (nth_error (keypoints p) RIGHT_EAR_KEYPOINT);
  cbn [score_ok get_x get_y];
  repeat match goal with
         | |- context [confident (score ?k)] => destruct (confident (score k))
         end.

(** Whatever the poses are, a frame throws before any update, or pushes one
    horizontal estimate, or pushes one horizontal and then one vertical
    estimate; the vertical one is the neutral 0.5 or a clamped value. *)
Lemma runPrediction_shape (poses : list (Pose N)) (a : App N) :
  let o := runPrediction poses a in
  (exists e, result o = Throw e /\ updates o = [])
  \/ (exists rx, updates o = [PushX rx])
  \/ (exists rx ry, result o = Normal tt /\ updates o = [PushX rx; PushY ry] /\
        (ry = lit_0_5 \/ exists v, ry = clamp_unit v)).
Proof.
  destruct a as [[] [] xi yi]; try (left; eexists; split; reflexivity).
  destruct poses as [|p [|q r]];
    try (right; right; do 2 eexists; repeat split; left; reflexivity).
  case_lookups p; simpl;
  first [ left; eexists; split; reflexivity
        | right; left; eexists; reflexivity
        | right; right; do 2 eexists; repeat split; right; eexists; reflexivity ].
Qed.

(** The application object changes only through the recorded updates. *)
Lemma after_replay (poses : list (Pose N)) (a : App N) :
  after (runPrediction poses a) = replay (updates (runPrediction poses a)) a.
Proof.
  destruct a as [[] [] xi yi]; try reflexivity.
  destruct poses as [|p [|q r]]; try reflexivity.
  case_lookups p; reflexivity.
Qed.


(** An array holds the five landmarks exactly when it has seven entries. *)
Lemma has_landmarks_length (pose : Pose N) :
  (exists l, has_landmarks pose l) <-> (7 <= length (keypoints pose))%nat.
Proof.
  unfold has_landmarks. split.
  - intros (l & _ & _ & _ & _ & Hrs).
    assert (Hsome : nth_error (keypoints pose) RIGHT_SHOULDER_KEYPOINT <> None)
      by congruence.
    apply nth_error_Some in Hsome. unfold RIGHT_SHOULDER_KEYPOINT in Hsome. lia.
  - intros Hlen. destruct pose as [ks]. simpl in *.
    destruct ks as [|k0 [|k1 [|k2 [|k3 [|k4 [|k5 [|k6 ks]]]]]]];
      simpl in Hlen; try lia.
    exists (mkLandmarks k0 k3 k4 k5 k6). repeat split.
Qed.

End Generic.

Section SinglePose.

Context {N : Type} `{JsNumber N}.

Lemma pushed_x_single (pose : Pose N) (l : landmarks N) (a : App N) :
  ready a -> has_landmarks pose l ->
  pushed_x (updates (runPrediction [pose] a)) =
  [if horizontal_gate l then horizontal_ratio l else lit_0_5].
Proof.
  intros Hr Hl. rewrite (runPrediction_single Hr Hl). cbn [updates pushed_x].
  now destruct (vertical_gate l).
Qed.

Lemma pushed_y_single (pose : Pose N) (l : landmarks N) (a : App N) :
  ready a -> has_landmarks pose l ->
  pushed_y (updates (runPrediction [pose] a)) =
  if vertical_gate l then [clamp_unit (y_scaled l)] else [].
Proof.
  intros Hr Hl. rewrite (runPrediction_single Hr Hl). cbn [updates pushed_y].
  now destruct (vertical_gate l).
Qed.

Lemma yInput_single (pose : Pose N) (l : landmarks N) (a : App N) :
  ready a -> has_landmarks pose l -> vertical_gate l = false ->
  yInput (after (runPrediction [pose] a)) = yInput a.
Proof.
  intros Hr Hl Hg. rewrite (runPrediction_single Hr Hl), Hg. reflexivity.
Qed.

End SinglePose.

(** ** binary64 arithmetic *)

Module Float64Facts.

Local Open Scope float_scope.

Lemma SFcompare_antisym (u v : spec_float) :
  SFcompare v u = option_map CompOpp (SFcompare u v).
Proof.
  destruct u as [s| s| |s m e], v as [s'| s'| |s' m' e']; simpl; try reflexivity;
    try (destruct s; reflexivity); try (destruct s'; reflexivity);
    try (destruct s, s'; reflexivity).
  replace (Pos.compare_cont Eq m' m) with (CompOpp (Pos.compare_cont Eq m m'))
    by apply Pos.compare_cont_antisym.
  rewrite (Z.compare_antisym e e').
  destruct s, s'; try reflexivity;
    destruct (e ?= e')%Z; simpl; try reflexivity;
    destruct (Pos.compare_cont Eq m m'); reflexivity.
Qed.

Lemma SFcompare_None (u v : spec_float) :
  SFcompare u v = None -> u = S754_nan \/ v = S754_nan.
Proof.
  destruct u as [s| s| |s m e], v as [s'| s'| |s' m' e']; simpl; intros E;
    try discriminate; auto.
Qed.

Lemma is_nan_spec (v : float) : is_nan v = true <-> Prim2SF v = S754_nan.
Proof.
  unfold is_nan. rewrite FloatAxioms.eqb_spec. unfold SFeqb. split.
  - destruct (SFcompare (Prim2SF v) (Prim2SF v)) as [c|] eqn:E.
    + destruct (Prim2SF v) as [s| s| |s m e]; simpl in E; try reflexivity.
      * inversion E; subst. discriminate.
      * destruct s; inversion E; subst; discriminate.
      * destruct s; rewrite Z.compare_refl, Pos.compare_cont_refl in E;
          inversion E; subst; discriminate.
    + destruct (SFcompare_None _ _ E); auto.
  - intros ->. reflexivity.
Qed.

Lemma not_finite_spec (v : float) :
  is_finite v = false <->
  Prim2SF v = S754_nan \/ exists s, Prim2SF v = S754_infinity s.
Proof.
  unfold is_finite, is_nan, is_infinity.
  rewrite !FloatAxioms.eqb_spec, abs_spec.
  change (Prim2SF infinity) with (S754_infinity false).
  destruct (Prim2SF v) as [s| s| |s m e]; simpl.
  - split; [discriminate | intros [E|[s' E]]; discriminate].
  - split; [eauto | destruct s; reflexivity].
  - split; [auto | reflexivity].
  - unfold SFeqb, SFcompare.
    rewrite Z.compare_refl, Pos.compare_cont_refl.
    split; [destruct s; discriminate | intros [E|[s' E]]; discriminate].
Qed.

(** [u < v] excludes [u >= v]. *)
Lemma lt_not_ge (u v : float) : Float64.lt u v = true -> Float64.ge u v = false.
Proof.
  unfold Float64.lt, Float64.ge.
  rewrite FloatAxioms.ltb_spec, FloatAxioms.leb_spec. unfold SFltb, SFleb.
  rewrite (SFcompare_antisym (Prim2SF u) (Prim2SF v)).
  destruct (SFcompare (Prim2SF u) (Prim2SF v)) as [[]|]; simpl; congruence.
Qed.

Lemma compare_leb (u v : float) :
  match PrimFloat.compare u v with
  | FLt => PrimFloat.leb u v = true
  | FEq => PrimFloat.leb u v = true /\ PrimFloat.leb v u = true
  | FGt => PrimFloat.leb v u = true
  | FNotComparable => is_nan u = true \/ is_nan v = true
  end.
Proof.
  rewrite FloatAxioms.compare_spec, !FloatAxioms.leb_spec. unfold SFleb.
  rewrite (SFcompare_antisym (Prim2SF u) (Prim2SF v)).
  destruct (SFcompare (Prim2SF u) (Prim2SF v)) as [[]|] eqn:E; simpl; auto.
  rewrite !is_nan_spec. now apply SFcompare_None.
Qed.

(** The clamp of a number lies in the unit interval. *)
Lemma clamp_in_unit (v : float) :
  is_nan v = false -> Float64.in_unit (clamp_unit v) = true.
Proof.
  intros Hv. unfold clamp_unit, Math_max, Math_min, lit_0, lit_1, float_number.
  unfold Float64.min.
  pose proof (compare_leb 1 v) as H1.
  destruct (PrimFloat.compare 1 v) eqn:E1.
  - change (get_sign 1) with false. cbv iota.
    unfold Float64.max. pose proof (compare_leb 0 v) as H0.
    destruct (PrimFloat.compare 0 v) eqn:E0.
    + reflexivity.
    + unfold Float64.in_unit. rewrite H0. now destruct H1 as [_ ->].
    + reflexivity.
    + destruct H0 as [H0|H0]; [discriminate H0 | congruence].
  - reflexivity.
  - unfold Float64.max. pose proof (compare_leb 0 v) as H0.
    destruct (PrimFloat.compare 0 v) eqn:E0.
    + reflexivity.
    + unfold Float64.in_unit. now rewrite H0, H1.
    + reflexivity.
    + destruct H0 as [H0|H0]; [discriminate H0 | congruence].
  - destruct H1 as [H1|H1]; [discriminate H1 | congruence].
Qed.




Lemma finite_spec (v : float) :
  is_finite v = true ->
  (exists s, Prim2SF v = S754_zero s) \/
  exists s m e, Prim2SF v = S754_finite s m e.
Proof.
  intros Hv.
  destruct (Prim2SF v) as [s| s| |s m e] eqn:E; eauto.
  - assert (is_finite v = false) by (apply not_finite_spec; eauto). congruence.
  - assert (is_finite v = false) by (apply not_finite_spec; eauto). congruence.
Qed.

Lemma eqb_zero_spec (v : float) :
  PrimFloat.eqb v 0 = true <-> exists s, Prim2SF v = S754_zero s.
Proof.
  rewrite FloatAxioms.eqb_spec. unfold SFeqb.
  change (Prim2SF 0) with (S754_zero false).
  destruct (Prim2SF v) as [s| s| |s m e]; simpl; split; eauto;
    try discriminate; try (destruct s; discriminate);
    intros [s' E]; discriminate.
Qed.

(** [v - v] is +0 for finite [v]. *)
Lemma sub_self (v : float) :
  is_finite v = true -> Prim2SF (v - v) = S754_zero false.
Proof.
  intros Hv. rewrite sub_spec.
  destruct (finite_spec v Hv) as [[s ->]|(s & m & e & ->)].
  - now destruct s.
  - unfold SF64sub, SFsub. rewrite Z.min_id. unfold shl_align.
    rewrite Z.sub_diag. cbn [fst]. reflexivity.
Qed.

(** A zero divided by a non-zero number is a zero. *)
Lemma zero_div (n d : float) :
  PrimFloat.eqb n 0 = true -> is_nan d = false -> PrimFloat.eqb d 0 = false ->
  PrimFloat.eqb (n / d) 0 = true.
Proof.
  intros Hn Hnan Hd. apply eqb_zero_spec in Hn. destruct Hn as [s Hn].
  apply eqb_zero_spec. rewrite div_spec, Hn.
  destruct (Prim2SF d) as [s'| s'| |s' m e] eqn:E; simpl; eauto.
  - assert (PrimFloat.eqb d 0 = true) by (apply eqb_zero_spec; eauto).
    congruence.
  - assert (is_nan d = true) by (now apply is_nan_spec). congruence.
Qed.

(** [d / d] is 1 for finite non-zero [d]: the quotient is exact. *)
Lemma div_self (d : float) :
  is_finite d = true -> PrimFloat.eqb d 0 = false -> d / d = 1.
Proof.
  intros Hf Hd. apply Prim2SF_inj. rewrite div_spec.
  destruct (finite_spec d Hf) as [[s E]|(s & m & e & ->)].
  - assert (PrimFloat.eqb d 0 = true) by (apply eqb_zero_spec; eauto).
    congruence.
  - unfold SF64div, SFdiv, SFdiv_core_binary.
    replace (Zdigits2 (Z.pos m) + e - (Zdigits2 (Z.pos m) + e))%Z with 0%Z by lia.
    rewrite Z.sub_diag.
    change (Z.min (fexp prec emax 0) 0) with (-53)%Z.
    change (0 - -53)%Z with 53%Z. cbv iota.
    assert (Hq : Z.div_eucl (Z.shiftl (Z.pos m) 53) (Z.pos m) = (2 ^ 53, 0)%Z).
    { rewrite Z.shiftl_mul_pow2 by lia.
      pose proof (Z.div_eucl_eq (Z.pos m * 2 ^ 53) (Z.pos m) ltac:(lia)) as Heq.
      pose proof (Z.mod_pos_bound (Z.pos m * 2 ^ 53) (Z.pos m) ltac:(lia)) as Hb.
      unfold Z.modulo in Hb.
      destruct (Z.div_eucl (Z.pos m * 2 ^ 53) (Z.pos m)) as [q r].
      assert (q = 2 ^ 53)%Z by nia. assert (r = 0)%Z by nia. now subst. }
    rewrite Hq.
    assert (Hloc : new_location (Z.pos m) 0 = loc_Exact).
    { unfold new_location, new_location_even, new_location_odd.
      now destruct (Z.even (Z.pos m)). }
    rewrite Hloc. rewrite xorb_nilpotent. reflexivity.
Qed.


Lemma step_not_finite_cur (cur raw : float) :
  is_finite cur = false -> is_finite (cur + (raw - cur) * 0.1) = false.
Proof.
  rewrite !not_finite_spec. rewrite add_spec, mul_spec, sub_spec.
  change (Prim2SF 0.1) with (S754_finite false 7205759403792794 (-56)).
  intros [->|[s ->]]; destruct (Prim2SF raw) as [s'| s'| |s' m e];
    try destruct s; try destruct s'; simpl; eauto.
Qed.

(** A confidence below the threshold fails the test [>= 0.3]. *)
Lemma below_not_confident (k : Keypoint float) :
  Float64Frames.below k = true -> confident (score k) = false.
Proof.
  unfold Float64Frames.below, confident. destruct (score k) as [s|]; [|reflexivity].
  apply lt_not_ge.
Qed.

Lemma low_confidence_closes_horizontal_gate (l : landmarks float) :
  Float64Frames.below (nose l) || Float64Frames.below (leftShoulder l)
  || Float64Frames.below (rightShoulder l) = true ->
  horizontal_gate l = false.
Proof.
  intros Hlow. unfold horizontal_gate.
  repeat (apply orb_true_iff in Hlow; destruct Hlow as [Hlow|Hlow]);
    apply below_not_confident in Hlow; rewrite Hlow;
    repeat (rewrite ?andb_false_r, ?andb_false_l); reflexivity.
Qed.

Lemma low_confidence_closes_vertical_gate (l : landmarks float) :
  Float64Frames.below (nose l) || Float64Frames.below (leftEar l)
  || Float64Frames.below (rightEar l) || Float64Frames.below (leftShoulder l)
  || Float64Frames.below (rightShoulder l) = true ->
  vertical_gate l = false.
Proof.
  intros Hlow. unfold vertical_gate.
  repeat (apply orb_true_iff in Hlow; destruct Hlow as [Hlow|Hlow]);
    apply below_not_confident in Hlow; rewrite Hlow;
    repeat (rewrite ?andb_false_r, ?andb_false_l); reflexivity.
Qed.

End Float64Facts.

(** ** exact arithmetic *)

Module ExactFacts.

Import Exact.
Local Open Scope Q_scope.










End ExactFacts.

(** * Properties of the pipeline *)

Import Float64Frames.

(** ** C1: bounds on raw estimates and smoothed signals *)




(** ** C2: how often a frame updates each signal *)

(** A single pose whose ears are hidden: the frame completes, pushes the
    horizontal estimate and never touches the vertical signal. *)
Lemma hidden_ears_skip_vertical_update :
  let o := runPrediction [pose_of eye ears_hidden] initial in
  result o = Normal tt /\
  updates o = [PushX 0.5%float] /\
  length (pushed_y (updates o)) = 0%nat /\
  ~ updated_once o.
Proof.
  cbv zeta. repeat split; try (vm_compute; reflexivity).
  intros [_ Hy]. vm_compute in Hy. discriminate Hy.
Qed.

(** C2, as the code has it.  A frame that completes changes the signals only
    through its recorded updates; it updates xInput exactly once; it updates
    yInput at most once: exactly once when the pose count is not 1, and, for a
    single pose carrying the five landmarks, once when all five confidences
    pass and not at all otherwise. *)
Theorem updates_per_frame (poses : list (Pose float)) (a : App float) :
  ready a -> result (runPrediction poses a) = Normal tt ->
  let o := runPrediction poses a in
  after o = replay (updates o) a /\
  length (pushed_x (updates o)) = 1%nat /\
  (length (pushed_y (updates o)) <= 1)%nat /\
  (length poses <> 1%nat -> length (pushed_y (updates o)) = 1%nat) /\
  (forall pose l, poses = [pose] -> has_landmarks pose l ->
     length (pushed_y (updates o)) = if vertical_gate l then 1%nat else 0%nat).
Proof.
  intros Hr Hres o. subst o. split; [apply after_replay|].
  split; [|split; [|split]].
  - destruct (runPrediction_shape poses a)
      as [(e & E & _)|[(rx & E)|(rx & ry & _ & E & _)]].
    + congruence.
    + now rewrite E.
    + now rewrite E.
  - destruct (runPrediction_shape poses a)
      as [(e & E & _)|[(rx & E)|(rx & ry & _ & E & _)]].
    + congruence.
    + rewrite E. simpl. lia.
    + rewrite E. simpl. lia.
  - intros Hlen. now rewrite (runPrediction_not_single poses Hr Hlen).
  - intros pose l -> Hl. rewrite (pushed_y_single Hr Hl).
    now destruct (vertical_gate l).
Qed.

Lemma updates_per_frame_witness :
  let o := runPrediction [pose_of eye ears_hidden] (@initial float _) in
  after o = replay (updates o) initial /\
  length (pushed_x (updates o)) = 1%nat /\
  (length (pushed_y (updates o)) <= 1)%nat /\
  (length [pose_of eye ears_hidden] <> 1%nat ->
   length (pushed_y (updates o)) = 1%nat) /\
  (forall pose l, [pose_of eye ears_hidden] = [pose] -> has_landmarks pose l ->
     length (pushed_y (updates o)) = if vertical_gate l then 1%nat else 0%nat).
Proof.
  apply (@updates_per_frame [pose_of eye ears_hidden] initial).
  - split; reflexivity.
  - vm_compute. reflexivity.
Defined.

(** ** C3: a failed vertical gate freezes yInput *)

(** C3.  For a single pose carrying the five landmarks, if at least one of
    the five confidences (nose, both ears, both shoulders) is below 0.3, the
    frame pushes no vertical estimate and leaves yInput as it was. *)
Theorem low_confidence_freezes_vertical
    (pose : Pose float) (l : landmarks float) (a : App float) :
  has_landmarks pose l ->
  below (nose l) || below (leftEar l) || below (rightEar l)
  || below (leftShoulder l) || below (rightShoulder l) = true ->
  let o := runPrediction [pose] a in
  pushed_y (updates o) = [] /\ yInput (after o) = yInput a.
Proof.
  intros Hl Hlow o. subst o.
  apply Float64Facts.low_confidence_closes_vertical_gate in Hlow.
  destruct a as [d c xi yi].
  destruct d, c; try (split; reflexivity).
  assert (Hr : ready (mkApp true true xi yi)) by (split; reflexivity).
  split.
  - now rewrite (pushed_y_single Hr Hl), Hlow.
  - now rewrite (yInput_single Hr Hl Hlow).
Qed.

Lemma low_confidence_freezes_vertical_witness :
  let o := runPrediction [pose_of eye ears_hidden] (@initial float _) in
  pushed_y (updates o) = [] /\ yInput (after o) = yInput (@initial float _).
Proof.
  apply (@low_confidence_freezes_vertical
           (pose_of eye ears_hidden) ears_hidden initial).
  - repeat split.
  - vm_compute. reflexivity.
Defined.

(** ** C4: the raw horizontal estimate *)

(** C4.  For a single pose carrying the landmarks: when the nose and both
    shoulder confidences are at least 0.3 the frame pushes exactly
    (nose.x - leftShoulder.x) / (rightShoulder.x - leftShoulder.x), and when
    one of the three is below 0.3 it pushes 0.5.  The ratio is 0 when
    nose.x = leftShoulder.x and 1 when nose.x = rightShoulder.x: in exact
    arithmetic whenever the shoulders differ in x, and on binary64 whenever
    the coordinates are finite and the shoulder span is a non-zero number.
    It is not clamped: the sideways pose pushes 6. *)
Theorem horizontal_estimate :
  (forall (pose : Pose float) (l : landmarks float) (a : App float),
      ready a -> has_landmarks pose l ->
      (confident (score (nose l)) = true ->
       confident (score (leftShoulder l)) = true ->
       confident (score (rightShoulder l)) = true ->
       pushed_x (updates (runPrediction [pose] a)) =
       [((x (nose l) - x (leftShoulder l))
         / (x (rightShoulder l) - x (leftShoulder l)))%float])
      /\ (below (nose l) || below (leftShoulder l) || below (rightShoulder l)
          = true ->
          pushed_x (updates (runPrediction [pose] a)) = [0.5%float]))
  /\ (forall l : landmarks Q,
      ~ (x (leftShoulder l) == x (rightShoulder l))%Q ->
      ((x (nose l) == x (leftShoulder l))%Q -> (horizontal_ratio l == 0)%Q)
      /\ ((x (nose l) == x (rightShoulder l))%Q -> (horizontal_ratio l == 1)%Q))
  /\ (forall l : landmarks float,
      let span := (x (rightShoulder l) - x (leftShoulder l))%float in
      (x (nose l) = x (leftShoulder l) -> is_finite (x (nose l)) = true ->
       is_nan span = false -> PrimFloat.eqb span 0 = false ->
       PrimFloat.eqb (horizontal_ratio l) 0 = true)
      /\ (x (nose l) = x (rightShoulder l) -> is_finite span = true ->
          PrimFloat.eqb span 0 = false ->
          horizontal_ratio l = 1%float))
  /\ pushed_x (updates (runPrediction [pose_of eye sideways] initial)) = [6%float].
Proof.
  split; [|split; [|split]].
  - intros pose l a Hr Hl. rewrite (pushed_x_single Hr Hl). split.
    + intros Hn Hls Hrs. unfold horizontal_gate. rewrite Hn, Hls, Hrs.
      reflexivity.
    + intros Hlow.
      now rewrite Float64Facts.low_confidence_closes_horizontal_gate.
  - intros l Hspan. unfold horizontal_ratio. cbn [js_sub js_div exact_number].
    split; intros E.
    + rewrite E. unfold Qdiv. ring.
    + rewrite E. field. intros E'. apply Hspan. lra.
  - intros l span. unfold horizontal_ratio. cbn [js_sub js_div float_number].
    fold span. split.
    + intros E Hfin Hnan Hnz. rewrite E in *.
      apply Float64Facts.zero_div; trivial.
      apply Float64Facts.eqb_zero_spec. exists false.
      now apply Float64Facts.sub_self.
    + intros E Hfin Hnz. rewrite E. fold span.
      now apply Float64Facts.div_self.
  - vm_compute. reflexivity.
Qed.

Lemma horizontal_estimate_witness :
  pushed_x (updates (runPrediction [pose_of eye Float64Frames.nose_over_right] initial))
  = [1%float]
  /\ pushed_x (updates (runPrediction [pose_of eye left_shoulder_hidden] initial))
     = [0.5%float]
  /\ (horizontal_ratio Exact.nose_over_right == 1)%Q
  /\ PrimFloat.eqb (horizontal_ratio nose_over_left) 0 = true
  /\ horizontal_ratio Float64Frames.nose_over_right = 1%float.
Proof.
  destruct horizontal_estimate as (Hf & Hq & Hb & _).
  split; [|split; [|split; [|split]]].
  - apply (Hf (pose_of eye Float64Frames.nose_over_right)
              Float64Frames.nose_over_right initial);
      [split; reflexivity | repeat split
      | reflexivity | reflexivity | reflexivity].
  - apply (Hf (pose_of eye left_shoulder_hidden) left_shoulder_hidden initial);
      [split; reflexivity | repeat split | reflexivity].
  - apply (Hq Exact.nose_over_right); [vm_compute; discriminate | reflexivity].
  - apply (Hb nose_over_left); reflexivity.
  - apply (Hb Float64Frames.nose_over_right); reflexivity.
Defined.

(** ** C5: the raw vertical estimate *)

(** Nose, ears and shoulders confidently detected on one horizontal line:
    nose.y = shoulderY = earY, the vertical ratio is 0/0, and the clamp lets
    the NaN through; the frame pushes NaN and yInput becomes NaN. *)
Lemma level_landmarks_push_nan :
  let o := runPrediction [pose_of eye level] initial in
  vertical_gate level = true /\
  pushed_y (updates o) = [nan] /\
  clamp_unit (y_scaled level) = nan /\
  Float64.in_unit nan = false /\
  is_nan (yInput (after o)) = true.
Proof. cbv zeta. repeat split; vm_compute; reflexivity. Qed.

(** C5, as the code has it.  For a single pose carrying the landmarks with
    all five confidences at least 0.3, the frame pushes
    clamp((y - 0.6) / (1.4 - 0.6), 0, 1) with
    y = (nose.y - shoulderY) / (earY - shoulderY), shoulderY and earY the
    means of the two shoulder and of the two ear y-coordinates; that value
    lies in [0,1] whenever yScaled is a number (not NaN). *)
Theorem vertical_estimate
    (pose : Pose float) (l : landmarks float) (a : App float) :
  ready a -> has_landmarks pose l -> vertical_gate l = true ->
  let shoulderY := ((y (leftShoulder l) + y (rightShoulder l)) / 2)%float in
  let earY := ((y (leftEar l) + y (rightEar l)) / 2)%float in
  let y := ((y (nose l) - shoulderY) / (earY - shoulderY))%float in
  let yScaled := ((y - 0.6) / (1.4 - 0.6))%float in
  pushed_y (updates (runPrediction [pose] a)) = [clamp_unit yScaled] /\
  (is_nan yScaled = false -> Float64.in_unit (clamp_unit yScaled) = true).
Proof.
  intros Hr Hl Hg. cbv zeta. split.
  - rewrite (pushed_y_single Hr Hl), Hg. reflexivity.
  - apply Float64Facts.clamp_in_unit.
Qed.

Lemma vertical_estimate_witness :
  pushed_y (updates (runPrediction [pose_of eye facing] initial)) =
  [0.38636363636363641%float]
  /\ Float64.in_unit 0.38636363636363641 = true.
Proof.
  destruct (@vertical_estimate (pose_of eye facing) facing initial) as [Hp Hu].
  - split; reflexivity.
  - repeat split.
  - reflexivity.
  - split; [exact Hp | apply Hu; reflexivity].
Defined.

(** ** C6: pose count other than one *)

(** C6.  When the provider returns zero poses, or two or more, the frame
    completes and pushes raw_x = 0.5 and then raw_y = 0.5, whatever the poses
    hold; each signal moves one smoothing step towards 0.5. *)
Theorem no_single_pose_pushes_neutral
    (poses : list (Pose float)) (a : App float) :
  ready a -> length poses <> 1%nat ->
  let o := runPrediction poses a in
  result o = Normal tt /\
  updates o = [PushX 0.5%float; PushY 0.5%float] /\
  xInput (after o) = (xInput a + (0.5 - xInput a) * 0.1)%float /\
  yInput (after o) = (yInput a + (0.5 - yInput a) * 0.1)%float.
Proof.
  intros Hr Hlen. cbv zeta. rewrite (runPrediction_not_single poses Hr Hlen).
  repeat split.
Qed.

Lemma no_single_pose_pushes_neutral_witness :
  let o := runPrediction [pose_of eye sideways; pose_of eye facing]
             (Float64Frames.at_x 0.9) in
  result o = Normal tt /\
  updates o = [PushX 0.5%float; PushY 0.5%float] /\
  xInput (after o) = (0.9 + (0.5 - 0.9) * 0.1)%float /\
  yInput (after o) = (0.5 + (0.5 - 0.5) * 0.1)%float.
Proof.
  apply (@no_single_pose_pushes_neutral
           [pose_of eye sideways; pose_of eye facing] (Float64Frames.at_x 0.9)).
  - split; reflexivity.
  - simpl. lia.
Defined.

(** ** C7: the smoothing step *)

(** C7.  [pushXInput] and [pushYInput] complete and assign
    signal + (raw - signal) * 0.1 to their own signal, leaving the other one
    alone; the factor is 0.1 for both; from 0.5 one update with raw = 1.0
    gives 0.55, both on binary64 (0.5 + 0.5 * 0.1 evaluates to the double
    0.55) and in exact arithmetic. *)
Theorem smoother_update :
  (forall (raw : float) (a : App float),
      let o := pushXInput raw a in
      result o = Normal tt /\
      xInput (after o) = (xInput a + (raw - xInput a) * 0.1)%float /\
      yInput (after o) = yInput a)
  /\ (forall (raw : float) (a : App float),
      let o := pushYInput raw a in
      result o = Normal tt /\
      yInput (after o) = (yInput a + (raw - yInput a) * 0.1)%float /\
      xInput (after o) = xInput a)
  /\ @POSE_LERP_FACTOR float _ = 0.1%float
  /\ xInput (after (pushXInput 1%float initial)) = 0.55%float
  /\ yInput (after (pushYInput 1%float initial)) = 0.55%float
  /\ (0.5 + 0.5 * 0.1 = 0.55)%float
  /\ (xInput (after (pushXInput 1%Q initial)) == 55 # 100)%Q.
Proof.
  repeat split.
Qed.

(** ** C8: repeated updates towards 1.0 *)




(** ** C9: the divisions are not guarded *)



(** ** C10: the keypoint reads *)

(** C10.  The five reads, at indices 0, 3, 4, 5 and 6, all find a keypoint
    exactly when the keypoint array has at least 7 entries; with at least 7
    entries a single-pose frame completes; nothing checks the length: on an
    array that stops after the nose the frame throws a TypeError. *)
Theorem keypoint_reads_in_bounds :
  (forall pose : Pose float,
      (nth_error (keypoints pose) NOSE_KEYPOINT <> None /\
       nth_error (keypoints pose) LEFT_EAR_KEYPOINT <> None /\
       nth_error (keypoints pose) RIGHT_EAR_KEYPOINT <> None /\
       nth_error (keypoints pose) LEFT_SHOULDER_KEYPOINT <> None /\
       nth_error (keypoints pose) RIGHT_SHOULDER_KEYPOINT <> None)
      <-> (7 <= length (keypoints pose))%nat)
  /\ (forall (pose : Pose float) (a : App float),
      ready a -> (7 <= length (keypoints pose))%nat ->
      result (runPrediction [pose] a) = Normal tt)
  /\ (length (keypoints truncated) = 1%nat /\
      result (runPrediction [truncated] initial) = Throw TypeError).
Proof.
  split; [|split].
  - intros pose. rewrite !nth_error_Some.
    unfold NOSE_KEYPOINT, LEFT_EAR_KEYPOINT, RIGHT_EAR_KEYPOINT,
      LEFT_SHOULDER_KEYPOINT, RIGHT_SHOULDER_KEYPOINT. lia.
  - intros pose a Hr Hlen.
    apply has_landmarks_length in Hlen. destruct Hlen as [l Hl].
    now rewrite (runPrediction_single Hr Hl).
  - split; reflexivity.
Qed.

Lemma keypoint_reads_in_bounds_witness :
  result (runPrediction [pose_of eye facing] (@initial float _)) = Normal tt.
Proof.
  destruct keypoint_reads_in_bounds as (_ & Hrun & _).
  apply (Hrun (pose_of eye facing) initial).
  - split; reflexivity.
  - simpl. lia.
Defined.

(** * The frame loop, the renderer and further edge cases *)

(** ** The frame loop *)

Section LoopFacts.

Context {N : Type} `{JsNumber N}.



Lemma replay_flags (us : list (update N)) (a : App N) :
  poseDetector (replay us a) = poseDetector a /\
  cameraLoaded (replay us a) = cameraLoaded a.
Proof.
  revert a. induction us as [|[raw|raw] us IH]; intros a; [now split| |];
    destruct (IH (apply_update a (PushX raw))),
      (IH (apply_update a (PushY raw)));
    split; simpl in *; congruence.
Qed.

Lemma runPrediction_keeps_ready (poses : list (Pose N)) (a : App N) :
  ready a -> ready (after (runPrediction poses a)).
Proof.
  unfold ready. rewrite after_replay.
  destruct (replay_flags (updates (runPrediction poses a)) a) as [-> ->].
  trivial.
Qed.


Lemma set_up_of_ready (a : App N) : ready a -> set_up a = a.
Proof. intros [Hd Hc]. destruct a; simpl in *; subst. reflexivity. Qed.

Lemma ready_can_set_up (env : environment) (a : App N) :
  ready a -> can_set_up env a.
Proof. intros [Hd Hc]. split; auto. Qed.

(** When the set-up goes through, a call of [run] is [runPrediction] on the
    set-up object. *)
Lemma run_once_set_up (env : environment) (poses : list (Pose N)) (a : App N) :
  can_set_up env a -> run_once env poses a = runPrediction poses (set_up a).
Proof.
  intros [Hd Hc]. unfold run_once.
  generalize (runPrediction poses) as m. intros m.
  destruct a as [d c xi yi]; simpl in Hd, Hc.
  unfold bind, this, ret, setupPoseDetector, setupCamera, assign, set_up; simpl.
  destruct d, c; simpl.
  - destruct (m _) as [[] a' us]; reflexivity.
  - destruct Hc as [Hc|[-> ->]]; [discriminate|]. simpl.
    destruct (m _) as [[] a' us]; reflexivity.
  - destruct Hd as [Hd| ->]; [discriminate|]. simpl.
    destruct (m _) as [[] a' us]; reflexivity.
  - destruct Hd as [Hd| ->]; [discriminate|].
    destruct Hc as [Hc|[-> ->]]; [discriminate|]. simpl.
    destruct (m _) as [[] a' us]; reflexivity.
Qed.

(** When it does not, the call throws what the set-up threw, before any pose
    is looked at. *)
Lemma run_once_set_up_fails
    (env : environment) (poses : list (Pose N)) (a : App N) :
  ~ can_set_up env a ->
  exists e,
    result (run_once env poses a) = Throw e /\
    updates (run_once env poses a) = [] /\
    xInput (after (run_once env poses a)) = xInput a /\
    yInput (after (run_once env poses a)) = yInput a /\
    cameraLoaded (after (run_once env poses a)) = cameraLoaded a /\
    (createDetector env = Some e \/ getUserMedia env = Some e \/
     (mediaDevices env = false /\ e = getUserMedia_unavailable)).
Proof.
  unfold can_set_up. intros Hn. unfold run_once.
  generalize (runPrediction poses) as m. intros m.
  destruct a as [d c xi yi], env as [cd md gum]; simpl in *.
  unfold bind, this, ret, setupPoseDetector, setupCamera, assign; simpl.
  destruct d, c; simpl.
  - exfalso. apply Hn. auto.
  - destruct md; simpl.
    + destruct gum as [e|]; simpl.
      * exists e. repeat split; auto.
      * exfalso. apply Hn. auto.
    + exists getUserMedia_unavailable. repeat split; auto.
  - destruct cd as [e|]; simpl.
    + exists e. repeat split; auto.
    + exfalso. apply Hn. auto.
  - destruct cd as [e|]; simpl.
    + exists e. repeat split; auto.
    + destruct md; simpl.
      * destruct gum as [e|]; simpl.
        -- exists e. repeat split; auto.
        -- exfalso. apply Hn. auto.
      * exists getUserMedia_unavailable. repeat split; auto.
Qed.

Lemma can_set_up_dec (env : environment) (a : App N) :
  can_set_up env a \/ ~ can_set_up env a.
Proof.
  unfold can_set_up.
  destruct (poseDetector a), (cameraLoaded a), env as [[e|] [] [e'|]]; simpl;
    first [ left; split; auto; fail
          | right; intros [[?|?] [?|[? ?]]]; discriminate ].
Qed.





Lemma run_cons_set_up
    (env : environment) (poses : list (Pose N))
    (later : list (list (Pose N))) (a : App N) :
  can_set_up env a ->
  run env (poses :: later) a =
  bind (runPrediction poses) (fun _ => run env later) (set_up a).
Proof.
  intros Hs. cbn [run]. unfold bind. now rewrite (run_once_set_up poses Hs).
Qed.

Lemma run_cons_ready
    (env : environment) (poses : list (Pose N))
    (later : list (list (Pose N))) (a : App N) :
  ready a ->
  run env (poses :: later) a =
  bind (runPrediction poses) (fun _ => run env later) a.
Proof.
  intros Hr. rewrite (run_cons_set_up poses later (ready_can_set_up env Hr)).
  now rewrite (set_up_of_ready Hr).
Qed.

(** What every call of [run] preserves, the whole loop preserves. *)
Lemma run_invariant (P : App N -> Prop) (env : environment) :
  (forall poses a, P a -> P (after (run_once env poses a))) ->
  forall frames a, P a -> P (after (run env frames a)).
Proof.
  intros Hstep frames. induction frames as [|p later IH]; intros a Ha.
  - exact Ha.
  - cbn [run]. unfold bind.
    destruct (result (run_once env p a)) eqn:E; simpl.
    + apply IH. now apply Hstep.
    + now apply Hstep.
Qed.






(** A frame that throws has not pushed a vertical estimate. *)
Lemma throw_before_vertical (poses : list (Pose N)) (a : App N) (e : exn) :
  result (runPrediction poses a) = Throw e ->
  pushed_y (updates (runPrediction poses a)) = [] /\
  yInput (after (runPrediction poses a)) = yInput a.
Proof.
  intros E. rewrite after_replay.
  destruct (runPrediction_shape poses a)
    as [(e' & _ & U)|[(rx & U)|(rx & ry & R & _)]].
  - rewrite U. split; reflexivity.
  - rewrite U. split; reflexivity.
  - congruence.
Qed.

(** How a single-pose frame ends, by the length of the keypoint array. *)
Lemma short_array_throws (pose : Pose N) (a : App N) :
  ready a -> (length (keypoints pose) <= 5)%nat ->
  result (runPrediction [pose] a) = Throw TypeError.
Proof.
  intros [Hd Hc] Hlen. destruct a as [d c xi yi]; simpl in Hd, Hc; subst.
  destruct pose as [ks].
  destruct ks as [|k0 [|k1 [|k2 [|k3 [|k4 [|k5 ks]]]]]];
    cbn [keypoints length] in Hlen; try lia;
    unfold runPrediction; cbn [keypoints nth_error NOSE_KEYPOINT
      LEFT_SHOULDER_KEYPOINT RIGHT_SHOULDER_KEYPOINT LEFT_EAR_KEYPOINT
      RIGHT_EAR_KEYPOINT score_ok get_x get_y];
    try reflexivity;
    destruct (confident (score k0)); reflexivity.
Qed.

Lemma six_entries_throw (pose : Pose N) (ls : Keypoint N) (a : App N) :
  ready a -> length (keypoints pose) = 6%nat ->
  nth_error (keypoints pose) LEFT_SHOULDER_KEYPOINT = Some ls ->
  result (runPrediction [pose] a) =
  if confident (score ls) then Throw TypeError else Normal tt.
Proof.
  intros [Hd Hc] Hlen Hls. destruct a as [d c xi yi]; simpl in Hd, Hc; subst.
  destruct pose as [ks].
  destruct ks as [|k0 [|k1 [|k2 [|k3 [|k4 [|k5 [|k6 ks]]]]]]];
    cbn [keypoints length] in Hlen; try discriminate Hlen.
  cbn in Hls. inversion Hls; subst.
  unfold runPrediction; cbn [keypoints nth_error NOSE_KEYPOINT
      LEFT_SHOULDER_KEYPOINT RIGHT_SHOULDER_KEYPOINT LEFT_EAR_KEYPOINT
      RIGHT_EAR_KEYPOINT score_ok get_x get_y].
  destruct (confident (score k0)), (confident (score ls));
    try reflexivity.
Qed.

Lemma vertical_gate_horizontal (l : landmarks N) :
  vertical_gate l = true -> horizontal_gate l = true.
Proof.
  unfold vertical_gate, horizontal_gate.
  destruct (confident (score (nose l))), (confident (score (leftShoulder l))),
    (confident (score (rightShoulder l))), (confident (score (leftEar l))),
    (confident (score (rightEar l))); simpl; congruence.
Qed.


End LoopFacts.

Module Float64More.

Import Float64Facts.
Local Open Scope float_scope.

(** A NaN confidence fails the test [>= 0.3]. *)
Lemma nan_not_confident (s : float) :
  is_nan s = true -> confident (Some s) = false.
Proof.
  intros Hs. apply is_nan_spec in Hs.
  unfold confident, js_ge, float_number, Float64.ge.
  rewrite FloatAxioms.leb_spec, Hs. reflexivity.
Qed.

Lemma unusable_not_confident (k : Keypoint float) :
  Float64Loop.unusable k = true -> confident (score k) = false.
Proof.
  unfold Float64Loop.unusable. destruct (score k) as [s|]; [|reflexivity].
  apply nan_not_confident.
Qed.

(** Pushing the value a finite signal already has leaves it where it is. *)
Lemma step_fixed (s : float) :
  is_finite s = true -> PrimFloat.eqb (s + (s - s) * 0.1) s = true.
Proof.
  intros Hs. rewrite FloatAxioms.eqb_spec, add_spec, mul_spec.
  rewrite (sub_self s Hs).
  change (Prim2SF 0.1) with (S754_finite false 7205759403792794 (-56)).
  destruct (finite_spec s Hs) as [[sg ->]|(sg & m & e & ->)].
  - destruct sg; reflexivity.
  - simpl. unfold SFeqb, SFcompare.
    rewrite Z.compare_refl, Pos.compare_cont_refl. now destruct sg.
Qed.

Lemma mul_not_finite (u w : float) :
  is_finite u = false -> is_finite (u * w) = false.
Proof.
  rewrite !not_finite_spec, mul_spec.
  intros [->|[s ->]]; destruct (Prim2SF w) as [s'| s'| |s' m e]; simpl; eauto.
Qed.

Lemma one_minus_not_finite (u : float) :
  is_finite u = false -> is_finite (1 - u) = false.
Proof.
  rewrite !not_finite_spec, sub_spec.
  change (Prim2SF 1) with (S754_finite false 4503599627370496 (-52)).
  intros [->|[s ->]]; simpl; eauto.
Qed.

(** A NaN horizontal signal is not engaged. *)
Lemma nan_not_engaged (a : App float) :
  is_nan (xInput a) = true -> engaged a = false.
Proof.
  intros Hx. apply is_nan_spec in Hx.
  unfold engaged, js_ge, js_sub, Math_abs, float_number, float_abs, Float64.ge.
  rewrite FloatAxioms.leb_spec, abs_spec, sub_spec, Hx. reflexivity.
Qed.

Lemma replay_not_finite (us : list (update float)) (a : App float) :
  (is_finite (xInput a) = false -> is_finite (xInput (replay us a)) = false) /\
  (is_finite (yInput a) = false -> is_finite (yInput (replay us a)) = false).
Proof.
  revert a. induction us as [|[raw|raw] us IH]; intros a.
  - split; trivial.
  - destruct (IH (apply_update a (PushX raw))) as [IHx IHy]. split; intros Ha.
    + apply IHx. now apply step_not_finite_cur.
    + apply IHy. exact Ha.
  - destruct (IH (apply_update a (PushY raw))) as [IHx IHy]. split; intros Ha.
    + apply IHx. exact Ha.
    + apply IHy. now apply step_not_finite_cur.
Qed.

Lemma run_once_not_finite
    (env : environment) (poses : list (Pose float)) (a : App float) :
  (is_finite (xInput a) = false ->
   is_finite (xInput (after (run_once env poses a))) = false) /\
  (is_finite (yInput a) = false ->
   is_finite (yInput (after (run_once env poses a))) = false).
Proof.
  destruct (can_set_up_dec env a) as [Hs|Hs].
  - rewrite (run_once_set_up poses Hs), after_replay.
    apply (replay_not_finite _ (set_up a)).
  - destruct (run_once_set_up_fails poses Hs) as (e & _ & _ & -> & -> & _).
    split; trivial.
Qed.

End Float64More.

Module ExactMore.

Local Open Scope Q_scope.



End ExactMore.

Import Float64More ExactMore.



(** X2.  When a set-up step that is still due fails, [run] throws that
    step's exception in its first call: no frame is processed, no update is
    made, both signals and the camera flag keep their values.  The exception
    is the rejection of [createDetector] or of [getUserMedia], or the Error
    [setupCamera] throws itself when [getUserMedia] does not exist. *)
Theorem run_without_set_up
    (env : environment) (frames : list (list (Pose float))) (a : App float) :
  ~ can_set_up env a -> frames <> [] ->
  exists e,
    result (run env frames a) = Throw e /\
    updates (run env frames a) = [] /\
    xInput (after (run env frames a)) = xInput a /\
    yInput (after (run env frames a)) = yInput a /\
    cameraLoaded (after (run env frames a)) = cameraLoaded a /\
    (createDetector env = Some e \/ getUserMedia env = Some e \/
     (mediaDevices env = false /\ e = getUserMedia_unavailable)).
Proof.
  intros Hs Hne. destruct frames as [|p later]; [congruence|].
  destruct (run_once_set_up_fails p Hs) as (e & E & U & X & Y & C & Hwhy).
  exists e. cbn [run]. unfold bind. rewrite E. cbn [result after updates].
  repeat split; trivial.
Qed.

Lemma run_without_set_up_witness :
  exists e,
    result (run Float64Loop.no_camera [[pose_of eye facing]] Float64Loop.fresh)
    = Throw e /\
    updates (run Float64Loop.no_camera [[pose_of eye facing]] Float64Loop.fresh)
    = [] /\
    xInput (after (run Float64Loop.no_camera [[pose_of eye facing]]
                     Float64Loop.fresh)) = xInput Float64Loop.fresh /\
    yInput (after (run Float64Loop.no_camera [[pose_of eye facing]]
                     Float64Loop.fresh)) = yInput Float64Loop.fresh /\
    cameraLoaded (after (run Float64Loop.no_camera [[pose_of eye facing]]
                           Float64Loop.fresh))
    = cameraLoaded Float64Loop.fresh /\
    (createDetector Float64Loop.no_camera = Some e \/
     getUserMedia Float64Loop.no_camera = Some e \/
     (mediaDevices Float64Loop.no_camera = false /\
      e = getUserMedia_unavailable)).
Proof.
  apply (@run_without_set_up Float64Loop.no_camera [[pose_of eye facing]]
           Float64Loop.fresh).
  - intros [_ [Hc|[Hm _]]]; discriminate.
  - discriminate.
Defined.





(** X5.  Once the detector is set and the camera loaded, [run] no longer
    consults the environment: the set-up is not repeated. *)
Theorem run_ignores_environment_once_ready
    (env env' : environment) (frames : list (list (Pose float)))
    (a : App float) :
  ready a -> run env frames a = run env' frames a.
Proof.
  revert a. induction frames as [|p later IH]; intros a Hr; [reflexivity|].
  rewrite !(run_cons_ready _ p later Hr). unfold bind.
  destruct (result (runPrediction p a)); [|reflexivity].
  now rewrite (IH _ (runPrediction_keeps_ready p Hr)).
Qed.

Lemma run_ignores_environment_once_ready_witness :
  run Float64Loop.browser [[pose_of eye facing]; []] initial
  = run Float64Loop.no_camera [[pose_of eye facing]; []] initial.
Proof.
  apply (@run_ignores_environment_once_ready Float64Loop.browser
           Float64Loop.no_camera [[pose_of eye facing]; []] initial).
  split; reflexivity.
Defined.



(** X7.  A signal that is infinite or NaN stays infinite or NaN over any
    sequence of frames, in any environment, whether the frames complete or
    throw. *)
Theorem non_finite_signal_is_permanent
    (env : environment) (frames : list (list (Pose float))) (a : App float) :
  (is_finite (xInput a) = false ->
   is_finite (xInput (after (run env frames a))) = false) /\
  (is_finite (yInput a) = false ->
   is_finite (yInput (after (run env frames a))) = false).
Proof.
  split; intros Ha.
  - apply (run_invariant (fun b => is_finite (xInput b) = false)); trivial.
    intros poses b. apply run_once_not_finite.
  - apply (run_invariant (fun b => is_finite (yInput b) = false)); trivial.
    intros poses b. apply run_once_not_finite.
Qed.

Lemma non_finite_signal_is_permanent_witness :
  is_finite (xInput (after (run Float64Loop.browser
                              [[pose_of eye facing]; []; [pose_of eye sideways]]
                              (Float64Frames.at_x nan)))) = false.
Proof.
  apply (proj1 (@non_finite_signal_is_permanent Float64Loop.browser
                  [[pose_of eye facing]; []; [pose_of eye sideways]]
                  (Float64Frames.at_x nan))).
  reflexivity.
Defined.

(** X8.  A frame that throws has pushed no vertical estimate and leaves
    yInput as it was; it may already have updated xInput: on a five-entry
    array with a hidden nose the frame pushes raw_x = 0.5, moves xInput away
    from 0.9 and then throws. *)
Theorem throwing_frame_keeps_vertical :
  (forall (poses : list (Pose float)) (a : App float) (e : exn),
      result (runPrediction poses a) = Throw e ->
      pushed_y (updates (runPrediction poses a)) = [] /\
      yInput (after (runPrediction poses a)) = yInput a)
  /\ (let o := runPrediction [Float64Loop.five_nose_hidden]
                 (Float64Frames.at_x 0.9) in
      result o = Throw TypeError /\
      updates o = [PushX 0.5%float] /\
      PrimFloat.eqb (xInput (after o)) 0.9 = false).
Proof.
  split.
  - intros poses a e. apply throw_before_vertical.
  - cbv zeta. repeat split; vm_compute; reflexivity.
Qed.

Lemma throwing_frame_keeps_vertical_witness :
  pushed_y (updates (runPrediction [truncated] (@initial float _))) = [] /\
  yInput (after (runPrediction [truncated] (@initial float _)))
  = yInput (@initial float _).
Proof.
  apply (proj1 throwing_frame_keeps_vertical [truncated] initial TypeError).
  reflexivity.
Defined.

(** X9.  How a single-pose frame ends, by the length of the keypoint
    array: with at most five entries it throws a TypeError; with six it throws
    exactly when the left shoulder is confident; with seven or more it
    completes. *)
Theorem failure_by_array_length (pose : Pose float) (a : App float) :
  ready a ->
  ((length (keypoints pose) <= 5)%nat ->
   result (runPrediction [pose] a) = Throw TypeError)
  /\ (forall ls,
         length (keypoints pose) = 6%nat ->
         nth_error (keypoints pose) LEFT_SHOULDER_KEYPOINT = Some ls ->
         result (runPrediction [pose] a) =
         if confident (score ls) then Throw TypeError else Normal tt)
  /\ ((7 <= length (keypoints pose))%nat ->
      result (runPrediction [pose] a) = Normal tt).
Proof.
  intros Hr. split; [|split].
  - now apply short_array_throws.
  - intros ls. now apply six_entries_throw.
  - intros Hlen. apply has_landmarks_length in Hlen. destruct Hlen as [l Hl].
    now rewrite (runPrediction_single Hr Hl).
Qed.

Lemma failure_by_array_length_witness :
  result (runPrediction [Float64Loop.five_nose_hidden] (@initial float _))
  = Throw TypeError
  /\ result (runPrediction [Float64Loop.six_confident] (@initial float _))
     = Throw TypeError
  /\ result (runPrediction [Float64Loop.six_hidden] (@initial float _))
     = Normal tt.
Proof.
  split; [|split].
  - apply (proj1 (@failure_by_array_length Float64Loop.five_nose_hidden initial
                    (conj eq_refl eq_refl))).
    simpl. lia.
  - apply (proj1 (proj2 (@failure_by_array_length Float64Loop.six_confident
                           initial (conj eq_refl eq_refl)))
             (kp 400 300 0.9)); reflexivity.
  - apply (proj1 (proj2 (@failure_by_array_length Float64Loop.six_hidden
                           initial (conj eq_refl eq_refl)))
             (kp 400 300 0.1)); reflexivity.
Defined.

(** X10.  A single-pose frame that pushes a vertical estimate has passed
    the horizontal gate too, and pushes the shoulder ratio as its horizontal
    estimate: a computed raw_y never comes with the neutral raw_x. *)
Theorem vertical_estimate_comes_with_ratio
    (pose : Pose float) (l : landmarks float) (a : App float) :
  ready a -> has_landmarks pose l ->
  pushed_y (updates (runPrediction [pose] a)) <> [] ->
  horizontal_gate l = true /\
  pushed_x (updates (runPrediction [pose] a)) = [horizontal_ratio l].
Proof.
  intros Hr Hl. rewrite (pushed_y_single Hr Hl), (pushed_x_single Hr Hl).
  destruct (vertical_gate l) eqn:Hv; [|congruence].
  intros _. rewrite (vertical_gate_horizontal l Hv). split; reflexivity.
Qed.

Lemma vertical_estimate_comes_with_ratio_witness :
  horizontal_gate facing = true /\
  pushed_x (updates (runPrediction [pose_of eye facing] (@initial float _)))
  = [horizontal_ratio facing].
Proof.
  apply (@vertical_estimate_comes_with_ratio (pose_of eye facing) facing initial).
  - split; reflexivity.
  - repeat split.
  - vm_compute. discriminate.
Defined.

(** X11.  A keypoint whose score is absent or NaN closes the gates it takes
    part in, although such a score is not below the threshold: the nose or a
    shoulder makes the frame push raw_x = 0.5, and any of the five landmarks
    makes it push no vertical estimate and leave yInput as it was. *)
Theorem unusable_score_closes_gates
    (pose : Pose float) (l : landmarks float) (a : App float) :
  ready a -> has_landmarks pose l ->
  let o := runPrediction [pose] a in
  (Float64Loop.unusable (nose l) || Float64Loop.unusable (leftShoulder l)
   || Float64Loop.unusable (rightShoulder l) = true ->
   pushed_x (updates o) = [0.5%float])
  /\ (Float64Loop.unusable (nose l) || Float64Loop.unusable (leftEar l)
      || Float64Loop.unusable (rightEar l)
      || Float64Loop.unusable (leftShoulder l)
      || Float64Loop.unusable (rightShoulder l) = true ->
      pushed_y (updates o) = [] /\ yInput (after o) = yInput a).
Proof.
  intros Hr Hl. cbv zeta. split; intros Hu.
  - rewrite (pushed_x_single Hr Hl).
    assert (Hg : horizontal_gate l = false).
    { unfold horizontal_gate.
      repeat (apply orb_true_iff in Hu; destruct Hu as [Hu|Hu]);
        apply unusable_not_confident in Hu; rewrite Hu;
        repeat (rewrite ?andb_false_r, ?andb_false_l); reflexivity. }
    now rewrite Hg.
  - assert (Hg : vertical_gate l = false).
    { unfold vertical_gate.
      repeat (apply orb_true_iff in Hu; destruct Hu as [Hu|Hu]);
        apply unusable_not_confident in Hu; rewrite Hu;
        repeat (rewrite ?andb_false_r, ?andb_false_l); reflexivity. }
    split.
    + now rewrite (pushed_y_single Hr Hl), Hg.
    + now rewrite (yInput_single Hr Hl Hg).
Qed.

Lemma unusable_score_closes_gates_witness :
  pushed_x (updates (runPrediction [pose_of eye Float64Loop.nose_unscored]
                       (@initial float _))) = [0.5%float]
  /\ (pushed_y (updates (runPrediction [pose_of eye Float64Loop.ear_score_nan]
                           (@initial float _))) = [] /\
      yInput (after (runPrediction [pose_of eye Float64Loop.ear_score_nan]
                       (@initial float _))) = yInput (@initial float _)).
Proof.
  split.
  - apply (proj1 (@unusable_score_closes_gates
                    (pose_of eye Float64Loop.nose_unscored)
                    Float64Loop.nose_unscored initial
                    (conj eq_refl eq_refl)
                    (has_landmarks_pose_of eye Float64Loop.nose_unscored))).
    reflexivity.
  - apply (proj2 (@unusable_score_closes_gates
                    (pose_of eye Float64Loop.ear_score_nan)
                    Float64Loop.ear_score_nan initial
                    (conj eq_refl eq_refl)
                    (has_landmarks_pose_of eye Float64Loop.ear_score_nan))).
    reflexivity.
Defined.


(** X13.  On binary64, pushing the value a finite signal already has
    leaves the signal equal to what it was. *)
Theorem pushing_current_value_is_identity (a : App float) :
  (is_finite (xInput a) = true ->
   PrimFloat.eqb (xInput (after (pushXInput (xInput a) a))) (xInput a) = true)
  /\ (is_finite (yInput a) = true ->
      PrimFloat.eqb (yInput (after (pushYInput (yInput a) a))) (yInput a) = true).
Proof.
  split; intros Hf; now apply step_fixed.
Qed.

Lemma pushing_current_value_is_identity_witness :
  PrimFloat.eqb (xInput (after (pushXInput 0.7%float (Float64Frames.at_x 0.7))))
    0.7 = true.
Proof.
  apply (proj1 (@pushing_current_value_is_identity (Float64Frames.at_x 0.7))).
  reflexivity.
Defined.





(** X16.  On binary64, [draw] paints a NaN horizontal signal in the neutral
    colour, and an infinite or NaN signal gives the arc a centre coordinate
    that is infinite or NaN, whatever the canvas size. *)
Theorem non_finite_signal_on_canvas (v : Viewport float) (a : App float) :
  (is_nan (xInput a) = true ->
   In (FillStyle "rgba(255, 255, 255, 0.5)") (draw_ops v a))
  /\ (forall cx cy radius s e,
         In (Arc cx cy radius s e) (draw_ops v a) ->
         (is_finite (xInput a) = false -> is_finite cx = false) /\
         (is_finite (yInput a) = false -> is_finite cy = false)).
Proof.
  split.
  - intros Hx. unfold draw_ops, indicator_fill. rewrite (nan_not_engaged a Hx).
    simpl. intuition.
  - intros cx cy radius s e Hin. unfold draw_ops in Hin. simpl in Hin.
    repeat (destruct Hin as [Hin|Hin]; try discriminate Hin); [|contradiction].
    inversion Hin; subst. split; intros Hf.
    + now apply mul_not_finite.
    + apply mul_not_finite. now apply one_minus_not_finite.
Qed.

Lemma non_finite_signal_on_canvas_witness :
  In (FillStyle "rgba(255, 255, 255, 0.5)")
     (draw_ops Float64Loop.canvas (Float64Frames.at_x nan)).
Proof.
  apply (proj1 (@non_finite_signal_on_canvas Float64Loop.canvas
                  (Float64Frames.at_x nan))).
  reflexivity.
Defined.
